(** * The portfolio page: Header.vue and nuxt.config.ts

    A shallow embedding of the two code files of the repository:

    - [components/Header.vue]: a static template, a scoped style sheet and a
      [<script setup>] block that creates one boolean ref, [scrolled], and on
      mount registers a scroll listener on [window] that stores
      [window.scrollY > 0] in it;
    - [nuxt.config.ts]: one object literal handed to [defineNuxtConfig].

    The browser and the framework are modelled only as far as the code uses
    them: the event-listener list of [window] with the add and dispatch
    algorithms of the DOM standard, a store of Vue refs, the mounted and
    unmounted hook lists of a component instance, and the rendering of a
    template against the bindings of its [setup]. *)

From Stdlib Require Import QArith.
From stdpp Require Import gmap strings list.

Set Warnings "-register-all".
Local Open Scope string_scope.

(** ** The page: [window] and the refs *)

Module Dom.

(** A function object that the program passes to [addEventListener]. The
    repository has one: the arrow function of Header.vue lines 34-36,
    which closes over the ref [scrolled] of its component instance. A
    function object is identified by the ref it captured: the mounted hook
    that builds it runs once for an instance, and every instance has a ref
    of its own. *)
Inductive callback : Type :=
| ScrollHandler (scrolled : nat).

(** An entry of an event target's listener list (DOM standard, 2.7), once
    the options have been flattened. *)
Record listener : Type := Listener {
  l_type : string;
  l_callback : callback;
  l_capture : bool;
  l_passive : bool;
  l_once : bool
}.

(** The optional third argument of [addEventListener]. *)
Record AddEventListenerOptions : Type := Options {
  capture : bool;
  passive : option bool;
  once : bool
}.

(** What the code can observe of the page: the vertical scroll offset (a
    finite double, kept as the rational it denotes), the listeners of
    [window], and the Vue refs that hold a boolean. *)
Record world : Type := World {
  scrollY : Q;
  listeners : list listener;
  refs : gmap nat bool
}.

#[global] Instance callback_eq_dec : EqDecision callback.
Proof. solve_decision. Defined.

#[global] Instance listener_eq_dec : EqDecision listener.
Proof. solve_decision. Defined.

Definition set_scrollY (y : Q) (w : world) : world :=
  World y (listeners w) (refs w).

Definition set_listeners (ls : list listener) (w : world) : world :=
  World (scrollY w) ls (refs w).

Definition set_refs (rs : gmap nat bool) (w : world) : world :=
  World (scrollY w) (listeners w) rs.

(** [y > 0] on the number [y]. *)
Definition gt_zero (y : Q) : bool := (0 <? Qnum y)%Z.

(** The default passive value of the DOM standard for a listener added to
    a [Window]: true for the four touch and wheel event types only. *)
Definition default_passive (type : string) : bool :=
  bool_decide (type ∈ ["touchstart"; "touchmove"; "wheel"; "mousewheel"]).

(** Flattening of the options argument; an absent argument gives
    capture false, once false and a null passive, and a null passive is
    resolved to the default passive value of the event type. *)
Definition flatten (type : string) (cb : callback)
    (options : option AddEventListenerOptions) : listener :=
  match options with
  | None => Listener type cb false (default_passive type) false
  | Some o =>
      Listener type cb (capture o)
        (default (default_passive type) (passive o)) (once o)
  end.

(** Two listeners are the same entry when type, callback and capture
    agree. *)
Definition same_entry (a b : listener) : bool :=
  bool_decide (l_type a = l_type b) &&
  bool_decide (l_callback a = l_callback b) &&
  bool_decide (l_capture a = l_capture b).

(** [window.addEventListener(type, cb, options)]: append the flattened
    listener unless the list already has the same entry. *)
Definition addEventListener (type : string) (cb : callback)
    (options : option AddEventListenerOptions) (w : world) : world :=
  let l := flatten type cb options in
  if existsb (same_entry l) (listeners w) then w
  else set_listeners (listeners w ++ [l]) w.

(** Calling a function object. [ScrollHandler]: Header.vue line 35,
    [scrolled.value = window.scrollY > 0]. *)
Definition call (cb : callback) (w : world) : world :=
  match cb with
  | ScrollHandler scrolled =>
      set_refs (<[scrolled := gt_zero (scrollY w)]> (refs w)) w
  end.

(** One step of the inner invoke of the DOM standard: a listener of
    another type is skipped; a once listener is taken off the list before
    its callback runs. *)
Definition invoke (type : string) (w : world) (l : listener) : world :=
  if decide (l_type l = type) then
    call (l_callback l)
      (if l_once l
       then set_listeners (filter (λ l', l' ≠ l) (listeners w)) w
       else w)
  else w.

(** Dispatching an event of the given type at [window]: the listeners of
    the list as it is when the dispatch starts are invoked in order. (No
    callback of this program removes a listener, so the standard's check
    of the removed flag is left out.) *)
Definition dispatch (type : string) (w : world) : world :=
  foldl (invoke type) w (listeners w).

(** The page is scrolled to the offset [y]: the browser updates
    [window.scrollY] and fires [scroll]. *)
Definition scroll (y : Q) (w : world) : world :=
  dispatch "scroll" (set_scrollY y w).

(** A run of scroll events, oldest first. *)
Definition scrolls (ys : list Q) (w : world) : world :=
  foldl (λ w y, scroll y w) w ys.

(** Every function object on the listener list closes over a ref that
    exists. *)
Definition captured (l : listener) : nat :=
  match l_callback l with
  | ScrollHandler r => r
  end.

Definition wf (w : world) : Prop :=
  Forall (λ l, is_Some (refs w !! captured l)) (listeners w).

(** A page that has just been loaded at offset [y]: no listener, no ref. *)
Definition fresh_page (y : Q) : world := World y [] ∅.

(** Whether [l] listens for [type] with the handler of the ref [r]. *)
Definition handles (type : string) (r : nat) (l : listener) : bool :=
  bool_decide (l_type l = type ∧ l_callback l = ScrollHandler r).

(** The listener that the mounted hook of Header.vue asks for. *)
Definition scroll_listener (r : nat) : listener :=
  flatten "scroll" (ScrollHandler r) None.

End Dom.

(** ** The script of Header.vue *)

Module Header.
Import Dom.

(** A function object handed to a lifecycle registration. The repository
    has one: the arrow function of lines 33-37, closed over [scrolled]. *)
Inductive hook : Type :=
| MountedHook (scrolled : nat).

(** The part of a Vue component instance that the script touches: the
    bindings that [setup] exposes to the template, and the hooks
    registered for mounted ([m]) and unmounted ([um]). *)
Record instance : Type := mkInstance {
  setupState : gmap string nat;
  m : list hook;
  um : list hook
}.

Definition createInstance : instance := mkInstance ∅ [] [].

(** [ref(v)]: a new ref holding [v]. *)
Definition ref (v : bool) (w : world) : nat * world :=
  let r := fresh (dom (refs w)) in
  (r, set_refs (<[r := v]> (refs w)) w).

(** [onMounted(h)] during the setup of instance [i]. *)
Definition onMounted (h : hook) (i : instance) : instance :=
  mkInstance (setupState i) (m i ++ [h]) (um i).

(** Lines 31-37: the body of [<script setup>]. Its top-level bindings
    (here [scrolled]) are what the template can read. *)
Definition setup (w : world) : instance * world :=
  let '(scrolled, w) := ref false w in
  let i := onMounted (MountedHook scrolled) createInstance in
  (mkInstance {["scrolled" := scrolled]} (m i) (um i), w).

(** Running a hook. [MountedHook]: lines 34-36,
    [window.addEventListener('scroll', () => ...)], no third argument. *)
Definition run_hook (w : world) (h : hook) : world :=
  match h with
  | MountedHook scrolled =>
      addEventListener "scroll" (ScrollHandler scrolled) None w
  end.

(** Mounting runs the mounted hooks in registration order, unmounting the
    unmounted hooks. *)
Definition mount (i : instance) (w : world) : world :=
  foldl run_hook w (m i).

Definition unmount (i : instance) (w : world) : world :=
  foldl run_hook w (um i).

(** The current value of a binding of the instance, as the template sees
    it (refs are unwrapped). *)
Definition binding (i : instance) (x : string) (w : world) : option bool :=
  r ← setupState i !! x; refs w !! r.

End Header.

(** ** Templates and their rendering *)

Module Template.

(** Values that a binding or a template expression can have. *)
Inductive value : Type :=
| VBool (b : bool)
| VStr (s : string)
| VUndefined.

(** Template expressions: an identifier of the setup bindings, a string
    literal, [c ? a : b]. The template of Header.vue has none; they are
    here so that a template that reads a binding can be written down. *)
Inductive expr : Type :=
| EVar (x : string)
| EStr (s : string)
| ECond (c a b : expr).

(** [name="v"] and [:name="e"]. *)
Inductive attr : Type :=
| Static (name v : string)
| Bound (name : string) (e : expr).

(** A template: elements, text, [{{ e }}] and comments. Whitespace between
    tags is condensed away by the template compiler and is not a node. *)
Inductive node : Type :=
| Element (tag : string) (attrs : list attr) (children : list node)
| Text (s : string)
| Interpolation (e : expr)
| Comment (s : string).

(** What a template renders to. *)
Inductive vnode : Type :=
| VElement (tag : string) (props : list (string * string))
    (children : list vnode)
| VText (s : string)
| VComment (s : string).

Definition env : Type := string → value.

Definition truthy (v : value) : bool :=
  match v with
  | VBool b => b
  | VStr s => negb (bool_decide (s = ""))
  | VUndefined => false
  end.

Definition toDisplayString (v : value) : string :=
  match v with
  | VBool true => "true"
  | VBool false => "false"
  | VStr s => s
  | VUndefined => ""
  end.

Fixpoint eval (ρ : env) (e : expr) : value :=
  match e with
  | EVar x => ρ x
  | EStr s => VStr s
  | ECond c a b => if truthy (eval ρ c) then eval ρ a else eval ρ b
  end.

(** A bound attribute whose value is [false] or [undefined] is left out. *)
Definition render_attr (ρ : env) (a : attr) : option (string * string) :=
  match a with
  | Static name v => Some (name, v)
  | Bound name e =>
      match eval ρ e with
      | VBool false | VUndefined => None
      | v => Some (name, toDisplayString v)
      end
  end.

Fixpoint render (ρ : env) (t : node) : vnode :=
  match t with
  | Element tag attrs children =>
      VElement tag (omap (render_attr ρ) attrs) (map (render ρ) children)
  | Text s => VText s
  | Interpolation e => VText (toDisplayString (eval ρ e))
  | Comment s => VComment s
  end.

(** The bindings a template reads. *)
Fixpoint expr_vars (e : expr) : list string :=
  match e with
  | EVar x => [x]
  | EStr _ => []
  | ECond c a b => expr_vars c ++ expr_vars a ++ expr_vars b
  end.

Definition attr_vars (a : attr) : list string :=
  match a with
  | Static _ _ => []
  | Bound _ e => expr_vars e
  end.

Fixpoint vars (t : node) : list string :=
  match t with
  | Element _ attrs children =>
      concat (map attr_vars attrs) ++ concat (map vars children)
  | Text _ => []
  | Interpolation e => expr_vars e
  | Comment _ => []
  end.

(** Queries on a rendered tree, all in document order. *)
Definition prop (name : string) (v : vnode) : option string :=
  match v with
  | VElement _ props _ =>
      (λ found, found.2.2) <$> list_find (λ p, p.1 = name) props
  | _ => None
  end.

Definition classes (v : vnode) : list string :=
  from_option String.words [] (prop "class" v).

Definition tag_of (v : vnode) : option string :=
  match v with
  | VElement tag _ _ => Some tag
  | _ => None
  end.

(** The element itself and every element below it. *)
Fixpoint elements (v : vnode) : list vnode :=
  match v with
  | VElement _ _ children => v :: concat (map elements children)
  | _ => []
  end.

(** [querySelectorAll('.c')], the root included. *)
Definition by_class (c : string) (v : vnode) : list vnode :=
  filter (λ e, c ∈ classes e) (elements v).

(** [querySelectorAll(tag)], the root included. *)
Definition by_tag (tag : string) (v : vnode) : list vnode :=
  filter (λ e, tag_of e = Some tag) (elements v).

(** The targets of the links of a tree. *)
Definition hrefs (v : vnode) : list string :=
  omap (prop "href") (by_tag "a" v).

(** The text below a node, concatenated. *)
Fixpoint textContent (v : vnode) : string :=
  match v with
  | VElement _ _ children => String.concat "" (map textContent children)
  | VText s => s
  | VComment _ => ""
  end.

End Template.

(** ** The template and the style sheet of Header.vue *)

Module HeaderView.
Import Template.

(** Lines 1-27. *)
Definition nav_item (href label : string) : node :=
  Element "li" []
    [Element "a" [Static "href" href; Static "class" "nav-link"]
       [Text label]].

Definition template : node :=
  Element "header" [Static "class" "header"]
    [Element "div" [Static "class" "container"]
       [Element "div" [Static "class" "header-content"]
          [Comment " Logo/Name ";
           Element "div" [Static "class" "logo"]
             [Element "h1" [Static "class" "name"]
                [Text "Developer Portfolio"];
              Element "p" [Static "class" "tagline"]
                [Text "Full Stack Developer | Problem Solver"]];
           Comment " Navigation ";
           Element "nav" [Static "class" "nav"]
             [Element "ul" [Static "class" "nav-links"]
                [nav_item "#home" "Home";
                 nav_item "#about" "About";
                 nav_item "#projects" "Projects";
                 nav_item "#skills" "Skills";
                 nav_item "#contact" "Contact"]];
           Comment " CTA Button ";
           Element "button" [Static "class" "cta-button"]
             [Text "Get in Touch"]]]].

(** The environment in which the template of instance [i] is rendered:
    the bindings of its setup, refs unwrapped. *)
Definition env_of (i : Header.instance) (w : Dom.world) : env :=
  λ x, from_option VBool VUndefined (Header.binding i x w).

Definition view (i : Header.instance) (w : Dom.world) : vnode :=
  render (env_of i w) template.

(** A selector of the style sheet: one class, with [:hover] and [::after]
    where written. *)
Record selector : Type := Selector {
  s_class : string;
  s_hover : bool;
  s_after : bool
}.

(** A rule, with the [max-width] (in px) of the media query around it. *)
Record rule : Type := Rule {
  r_max_width : option Z;
  r_selector : selector;
  r_declarations : list (string * string)
}.

(** Lines 40-160. (The attribute that scopes the rules to this component
    is the same on every element of the template and is left out.) *)
Definition stylesheet : list rule :=
  [ Rule None (Selector "header" false false)
      [("background", "linear-gradient(135deg, #667eea 0%, #764ba2 100%)");
       ("color", "white"); ("padding", "1.5rem 0"); ("position", "sticky");
       ("top", "0"); ("z-index", "100");
       ("box-shadow", "0 2px 10px rgba(0, 0, 0, 0.1)")];
    Rule None (Selector "container" false false)
      [("max-width", "1200px"); ("margin", "0 auto"); ("padding", "0 2rem")];
    Rule None (Selector "header-content" false false)
      [("display", "flex"); ("justify-content", "space-between");
       ("align-items", "center"); ("gap", "2rem")];
    Rule None (Selector "logo" false false)
      [("flex", "1")];
    Rule None (Selector "name" false false)
      [("margin", "0"); ("font-size", "1.5rem"); ("font-weight", "700");
       ("letter-spacing", "-0.5px")];
    Rule None (Selector "tagline" false false)
      [("margin", "0.25rem 0 0 0"); ("font-size", "0.9rem");
       ("opacity", "0.9")];
    Rule None (Selector "nav" false false)
      [("flex", "1"); ("display", "flex"); ("justify-content", "center")];
    Rule None (Selector "nav-links" false false)
      [("list-style", "none"); ("display", "flex"); ("gap", "2rem");
       ("margin", "0"); ("padding", "0")];
    Rule None (Selector "nav-link" false false)
      [("color", "white"); ("text-decoration", "none");
       ("font-weight", "500"); ("font-size", "0.95rem");
       ("transition", "opacity 0.3s ease"); ("position", "relative")];
    Rule None (Selector "nav-link" true false)
      [("opacity", "0.8")];
    Rule None (Selector "nav-link" false true)
      [("content", "''"); ("position", "absolute"); ("bottom", "-5px");
       ("left", "0"); ("width", "0"); ("height", "2px");
       ("background-color", "white"); ("transition", "width 0.3s ease")];
    Rule None (Selector "nav-link" true true)
      [("width", "100%")];
    Rule None (Selector "cta-button" false false)
      [("background-color", "white"); ("color", "#667eea");
       ("border", "none"); ("padding", "0.75rem 1.5rem");
       ("border-radius", "5px"); ("font-weight", "600");
       ("cursor", "pointer"); ("transition", "all 0.3s ease");
       ("white-space", "nowrap")];
    Rule None (Selector "cta-button" true false)
      [("transform", "translateY(-2px)");
       ("box-shadow", "0 4px 12px rgba(0, 0, 0, 0.2)")];
    Rule (Some 768%Z) (Selector "header-content" false false)
      [("flex-direction", "column"); ("gap", "1rem")];
    Rule (Some 768%Z) (Selector "nav-links" false false)
      [("gap", "1rem"); ("font-size", "0.85rem")];
    Rule (Some 768%Z) (Selector "cta-button" false false)
      [("width", "100%")];
    Rule (Some 768%Z) (Selector "name" false false)
      [("font-size", "1.25rem")] ].

(** Whether a rule selects an element in a viewport [width] px wide: its
    media query holds and its class is one of the element's classes. The
    pointer decides later which of the [:hover] rules take effect. *)
Definition selects (width : Z) (e : vnode) (r : rule) : bool :=
  from_option (λ max, bool_decide (width ≤ max)%Z) true (r_max_width r) &&
  bool_decide (s_class (r_selector r) ∈ classes e).

(** The rules applied to each element of a tree, in document order. *)
Definition applied_styles (width : Z) (v : vnode) : list (list rule) :=
  map (λ e, List.filter (selects width e) stylesheet) (elements v).

End HeaderView.

(** ** nuxt.config.ts *)

Module NuxtConfig.

(** The values an object literal is built from. *)
Inductive js : Type :=
| JStr (s : string)
| JNum (n : Z)
| JBool (b : bool)
| JArr (items : list js)
| JObj (fields : list (string * js)).

(** [defineNuxtConfig] of nuxt/config hands its argument back. *)
Definition defineNuxtConfig (c : js) : js := c.

(** Lines 3-20, the default export. *)
Definition config : js :=
  defineNuxtConfig
    (JObj
       [("compatibilityDate", JStr "2025-07-15");
        ("devtools", JObj [("enabled", JBool true)]);
        ("modules", JArr [JStr "@nuxt/ui"]);
        ("app",
         JObj
           [("head",
             JObj
               [("script",
                 JArr
                   [JObj
                      [("src", JStr "https://cdn.tailwindcss.com");
                       ("defer", JBool true)]])])]);
        ("devServer", JObj [("port", JNum 4200)])]).

(** [o.k]: the value of the last field named [k] of an object. *)
Definition get (k : string) (o : js) : option js :=
  match o with
  | JObj fields =>
      snd <$> last (List.filter (λ f, bool_decide (f.1 = k)) fields)
  | _ => None
  end.

(** [o.k1.k2...] *)
Definition get_path (ks : list string) (o : js) : option js :=
  foldl (λ v k, v ≫= get k) (Some o) ks.

(** The own keys of an object, in the order written. *)
Definition keys (o : js) : list string :=
  match o with
  | JObj fields => map fst fields
  | _ => []
  end.

End NuxtConfig.

(** ** Histories of the page *)

Module Page.
Import Dom Header.

(** What can happen to the page: a Header is set up and mounted and stays;
    a Header is set up, mounted and unmounted again (a page with the Header
    is shown and left); the page is scrolled to an offset. *)
Inductive action : Type :=
| MountHeader
| MountUnmountHeader
| ScrollTo (y : Q).

Definition step (w : world) (a : action) : world :=
  match a with
  | MountHeader => let '(i, w1) := setup w in mount i w1
  | MountUnmountHeader => let '(i, w1) := setup w in unmount i (mount i w1)
  | ScrollTo y => scroll y w
  end.

(** The page after the actions, oldest first. *)
Definition run (acts : list action) (w : world) : world :=
  foldl step w acts.

Definition is_mount (a : action) : bool :=
  match a with
  | ScrollTo _ => false
  | _ => true
  end.

(** The number of Headers that the actions mount. *)
Definition mounts (acts : list action) : nat :=
  length (List.filter is_mount acts).

(** The offset of the last scroll event among the actions, if there is
    one. *)
Definition scroll_offset (a : action) : option Q :=
  match a with
  | ScrollTo y => Some y
  | _ => None
  end.

Definition last_scroll (acts : list action) : option Q :=
  last (omap scroll_offset acts).

(** A page on which every listener is the scroll listener of a Header and
    every ref the flag of one: the listeners are distinct, each is what the
    mounted hook registers for the ref it captured, and a ref exists exactly
    when its listener is on the list. *)
Definition headers_only (w : world) : Prop :=
  NoDup (listeners w)
  ∧ Forall (λ l, l = scroll_listener (captured l)) (listeners w)
  ∧ ∀ r, is_Some (refs w !! r) ↔ scroll_listener r ∈ listeners w.

End Page.

(** * Properties *)

(** ** The comparison with zero *)

Section GtZero.
Import Dom.

Lemma gt_zero_spec (y : Q) : gt_zero y = true ↔ (0 < y)%Q.
Proof.
  unfold gt_zero, Qlt. cbn [Qnum Qden].
  rewrite Z.ltb_lt. lia.
Qed.

Lemma gt_zero_zero : gt_zero 0 = false.
Proof. reflexivity. Qed.

(** Equal numbers compare alike, whatever fraction writes them. *)
Lemma gt_zero_Qeq (y1 y2 : Q) : (y1 == y2)%Q → gt_zero y1 = gt_zero y2.
Proof.
  intros Heq. apply eq_true_iff_eq. rewrite !gt_zero_spec.
  by rewrite Heq.
Qed.

End GtZero.

(** ** Dispatching an event *)

Section Dispatch.
Import Dom.

Lemma call_scrollY cb w : scrollY (call cb w) = scrollY w.
Proof. by destruct cb. Qed.

Lemma call_listeners cb w : listeners (call cb w) = listeners w.
Proof. by destruct cb. Qed.

Lemma invoke_scrollY type w l : scrollY (invoke type w l) = scrollY w.
Proof.
  unfold invoke. case_decide; [|done].
  rewrite call_scrollY. by destruct (l_once l).
Qed.

Lemma invoke_refs type w l r :
  refs (invoke type w l) !! r =
    if handles type r l then Some (gt_zero (scrollY w)) else refs w !! r.
Proof.
  unfold invoke, handles. destruct l as [t [r'] c p o]; simpl.
  case_decide as Ht; simpl.
  - destruct (decide (r' = r)) as [->|Hne].
    + rewrite bool_decide_eq_true_2 by done.
      destruct o; simpl; by rewrite lookup_insert_eq.
    + rewrite bool_decide_eq_false_2 by (intros [_ ?]; congruence).
      destruct o; simpl; by rewrite lookup_insert_ne.
  - rewrite bool_decide_eq_false_2; [done | by intros [? _]].
Qed.

(** A listener that is not a once listener stays on the list. *)
Lemma invoke_keeps type w l l0 :
  l_once l0 = false → l0 ∈ listeners w → l0 ∈ listeners (invoke type w l).
Proof.
  intros Honce Hin. unfold invoke. case_decide; [|done].
  rewrite call_listeners. destruct (l_once l) eqn:Hl; [|done].
  simpl. apply list_elem_of_filter. split; [congruence | done].
Qed.

Lemma foldl_invoke_scrollY type ls w :
  scrollY (foldl (invoke type) w ls) = scrollY w.
Proof.
  induction ls as [|l ls IH] using rev_ind; [done|].
  by rewrite foldl_snoc, invoke_scrollY.
Qed.

(** After the listeners [ls] have been invoked, a ref that one of them
    handles holds the comparison, and any other ref what it held. *)
Lemma foldl_invoke_refs type ls w r :
  refs (foldl (invoke type) w ls) !! r =
    if existsb (handles type r) ls
    then Some (gt_zero (scrollY w)) else refs w !! r.
Proof.
  induction ls as [|l ls IH] using rev_ind; [done|].
  rewrite foldl_snoc, invoke_refs, foldl_invoke_scrollY, existsb_app.
  simpl. rewrite orb_false_r.
  destruct (handles type r l); [by rewrite orb_true_r|].
  by rewrite orb_false_r.
Qed.

Lemma foldl_invoke_keeps type ls w l0 :
  l_once l0 = false → l0 ∈ listeners w →
  l0 ∈ listeners (foldl (invoke type) w ls).
Proof.
  intros Honce. revert w.
  induction ls as [|l ls IH]; intros w Hin; [done|].
  simpl. apply IH. by apply invoke_keeps.
Qed.

Lemma scroll_scrollY y w : scrollY (scroll y w) = y.
Proof. unfold scroll, dispatch. by rewrite foldl_invoke_scrollY. Qed.

Lemma scroll_keeps y w l0 :
  l_once l0 = false → l0 ∈ listeners w → l0 ∈ listeners (scroll y w).
Proof. intros. unfold scroll, dispatch. by apply foldl_invoke_keeps. Qed.

Lemma scrolls_snoc ys y w : scrolls (ys ++ [y]) w = scroll y (scrolls ys w).
Proof. unfold scrolls. by rewrite foldl_snoc. Qed.

Lemma scrolls_keeps ys w l0 :
  l_once l0 = false → l0 ∈ listeners w → l0 ∈ listeners (scrolls ys w).
Proof.
  intros Honce. unfold scrolls. revert w.
  induction ys as [|y ys IH]; intros w Hin; [done|].
  simpl. apply IH. by apply scroll_keeps.
Qed.

(** A scroll event leaves in the ref of every scroll listener the
    comparison of the new offset with zero. *)
Lemma scroll_refs y w r :
  scroll_listener r ∈ listeners w →
  refs (scroll y w) !! r = Some (gt_zero y).
Proof.
  intros Hin. unfold scroll, dispatch.
  rewrite foldl_invoke_refs. simpl.
  replace (existsb _ _) with true; [done|].
  symmetry. apply existsb_exists. exists (scroll_listener r).
  split; [by apply list_elem_of_In|].
  by apply bool_decide_eq_true_2.
Qed.

(** A dispatch adds no listener and drops no ref. *)
Lemma invoke_listeners_sub type w l l0 :
  l0 ∈ listeners (invoke type w l) → l0 ∈ listeners w.
Proof.
  unfold invoke. case_decide; [|done].
  rewrite call_listeners. destruct (l_once l); [|done].
  simpl. by intros [_ ?]%list_elem_of_filter.
Qed.

Lemma foldl_invoke_listeners_sub type ls w l0 :
  l0 ∈ listeners (foldl (invoke type) w ls) → l0 ∈ listeners w.
Proof.
  revert w. induction ls as [|l ls IH]; intros w; [done|].
  simpl. intros Hin. by eapply invoke_listeners_sub, IH.
Qed.

(** Well-formedness is kept by a scroll event. *)
Lemma wf_scroll y w : wf w → wf (scroll y w).
Proof.
  unfold wf. rewrite !Forall_forall. intros Hwf l Hin.
  unfold scroll, dispatch in *.
  apply foldl_invoke_listeners_sub in Hin.
  rewrite foldl_invoke_refs.
  destruct (existsb _ _); [by eexists|].
  by apply Hwf.
Qed.

End Dispatch.

(** ** Setup, mount and unmount of the Header *)

Section Lifecycle.
Import Dom Header.

Lemma setup_instance w :
  (setup w).1 =
    mkInstance {["scrolled" := fresh (dom (refs w))]}
      [MountedHook (fresh (dom (refs w)))] [].
Proof. reflexivity. Qed.

Lemma setup_world w :
  (setup w).2 = set_refs (<[fresh (dom (refs w)) := false]> (refs w)) w.
Proof. reflexivity. Qed.

(** The template reads [scrolled] from the ref that setup made. *)
Lemma binding_scrolled w w' :
  binding (setup w).1 "scrolled" w' = refs w' !! fresh (dom (refs w)).
Proof.
  unfold binding. rewrite setup_instance. simpl.
  by rewrite lookup_singleton_eq.
Qed.

(** No listener of a well-formed page has captured the ref that the next
    setup will make. *)
Lemma fresh_not_listening w :
  wf w → existsb (same_entry (scroll_listener (fresh (dom (refs w)))))
           (listeners w) = false.
Proof.
  intros Hwf. apply not_true_is_false. intros Hex.
  apply existsb_exists in Hex as (l' & Hin & Hsame).
  apply list_elem_of_In in Hin.
  unfold wf in Hwf. rewrite Forall_forall in Hwf.
  specialize (Hwf l' Hin). apply elem_of_dom in Hwf.
  unfold same_entry in Hsame.
  apply andb_prop in Hsame as [Hsame _].
  apply andb_prop in Hsame as [_ Hcb].
  apply bool_decide_eq_true_1 in Hcb. simpl in Hcb.
  unfold captured in Hwf. rewrite <- Hcb in Hwf.
  by apply (is_fresh (dom (refs w))).
Qed.

(** Mounting a Header that was set up on a well-formed page appends its
    scroll listener and does nothing else. *)
Lemma mount_setup w :
  wf w →
  mount (setup w).1 (setup w).2 =
    set_listeners
      (listeners w ++ [scroll_listener (fresh (dom (refs w)))])
      (setup w).2.
Proof.
  intros Hwf. rewrite setup_instance, setup_world.
  pose proof (fresh_not_listening w Hwf) as Hnew.
  unfold mount, run_hook, addEventListener, scroll_listener in *.
  simpl in *. by rewrite Hnew.
Qed.

Lemma unmount_setup w w' : unmount (setup w).1 w' = w'.
Proof. reflexivity. Qed.

Lemma mounted_listening w :
  wf w →
  scroll_listener (fresh (dom (refs w)))
    ∈ listeners (mount (setup w).1 (setup w).2).
Proof.
  intros Hwf. rewrite mount_setup by done. simpl.
  apply elem_of_app. right. by apply list_elem_of_singleton.
Qed.

(** The flag of a mounted Header after a scroll event, whatever scroll
    events came before. *)
Lemma flag_after_scroll w ys y :
  wf w →
  binding (setup w).1 "scrolled"
    (scroll y (scrolls ys (mount (setup w).1 (setup w).2)))
  = Some (gt_zero y).
Proof.
  intros Hwf. rewrite binding_scrolled.
  apply scroll_refs, scrolls_keeps; [done|].
  by apply mounted_listening.
Qed.

Lemma wf_fresh_page y : wf (fresh_page y).
Proof. constructor. Qed.

(** Well-formedness is kept by setting up and mounting a Header. *)
Lemma wf_mount_setup w : wf w → wf (mount (setup w).1 (setup w).2).
Proof.
  intros Hwf. rewrite mount_setup by done.
  unfold wf. simpl. apply Forall_app. split.
  - eapply Forall_impl; [exact Hwf|]. intros l [b Hb].
    destruct (decide (fresh (dom (refs w)) = captured l)) as [->|Hne].
    + rewrite lookup_insert_eq. by eexists.
    + rewrite lookup_insert_ne by done. by eexists.
  - apply Forall_singleton. simpl.
    rewrite lookup_insert_eq. by eexists.
Qed.

End Lifecycle.

(** ** The claims about the scroll flag *)

Section Flag.
Import Dom Header.

(** C1. For every scroll event delivered after the Header has mounted, the
    handler sets [scrolled] to true if the vertical offset at that event
    exceeds zero and to false otherwise; in particular the flag is true
    after an event with a positive offset and false after a following event
    with offset 0. *)
Theorem scroll_sets_flag (w : world) (ys : list Q) (y : Q) :
  wf w →
  let i := (setup w).1 in
  let w' := scrolls ys (mount i (setup w).2) in
  binding i "scrolled" (scroll y w') = Some (gt_zero y)
  ∧ (gt_zero y = true ↔ (0 < y)%Q)
  ∧ ((0 < y)%Q →
     binding i "scrolled" (scroll y w') = Some true
     ∧ binding i "scrolled" (scroll 0 (scroll y w')) = Some false).
Proof.
  intros Hwf i w'. subst i w'.
  split; [by apply flag_after_scroll|].
  split; [apply gt_zero_spec|].
  intros Hpos. split.
  - rewrite flag_after_scroll by done.
    f_equal. by apply gt_zero_spec.
  - rewrite <- scrolls_snoc.
    by rewrite (flag_after_scroll w (ys ++ [y]) 0 Hwf).
Qed.

Lemma scroll_sets_flag_witness :
  wf (fresh_page 0)
  ∧ binding (setup (fresh_page 0)).1 "scrolled"
      (scroll (7 # 2)
         (scrolls [3 # 1; 0 # 1] (mount (setup (fresh_page 0)).1
                                (setup (fresh_page 0)).2)))
    = Some true.
Proof.
  split; [constructor|].
  apply (scroll_sets_flag (fresh_page 0) [3 # 1; 0 # 1] (7 # 2)); constructor.
Defined.

(** C8. [scrolled] is initialised to false at setup, before mount and
    before any scroll event: until the first scroll event the flag reads
    false, whatever the scroll offset of the page is at that time. *)
Theorem flag_initially_false (w : world) :
  let i := (setup w).1 in
  binding i "scrolled" (setup w).2 = Some false
  ∧ binding i "scrolled" (mount i (setup w).2) = Some false
  ∧ scrollY (mount i (setup w).2) = scrollY w.
Proof.
  cbv zeta. rewrite !binding_scrolled.
  rewrite setup_instance, setup_world.
  unfold mount, run_hook, addEventListener. simpl.
  destruct (existsb _ _); simpl; by rewrite lookup_insert_eq.
Qed.

(** C9. The flag depends only on the offset of the most recent scroll
    event: two non-empty runs of scroll events whose last offsets are the
    same number leave the same flag, and delivering the last event once
    more leaves the flag as it is. *)
Theorem flag_depends_on_last_offset (w : world) (ys1 ys2 : list Q)
    (y1 y2 : Q) :
  wf w →
  last ys1 = Some y1 → last ys2 = Some y2 → (y1 == y2)%Q →
  let i := (setup w).1 in
  let w' := mount i (setup w).2 in
  binding i "scrolled" (scrolls ys1 w') = binding i "scrolled" (scrolls ys2 w')
  ∧ binding i "scrolled" (scroll y1 (scrolls ys1 w'))
    = binding i "scrolled" (scrolls ys1 w').
Proof.
  intros Hwf [ys1' ->]%last_Some [ys2' ->]%last_Some Heq i w'.
  subst i w'.
  rewrite (flag_after_scroll w (ys1' ++ [y1]) y1 Hwf).
  rewrite !scrolls_snoc, !flag_after_scroll by done.
  split; [f_equal; by apply gt_zero_Qeq | done].
Qed.

Lemma flag_depends_on_last_offset_witness :
  let w' := mount (setup (fresh_page 0)).1 (setup (fresh_page 0)).2 in
  binding (setup (fresh_page 0)).1 "scrolled" (scrolls [0 # 1; 1 # 2] w')
  = binding (setup (fresh_page 0)).1 "scrolled"
      (scrolls [9 # 1; 0 # 1; 0 # 1; 2 # 4] w').
Proof.
  apply (flag_depends_on_last_offset (fresh_page 0)
           [0 # 1; 1 # 2] [9 # 1; 0 # 1; 0 # 1; 2 # 4] (1 # 2) (2 # 4));
    [constructor | reflexivity | reflexivity | reflexivity].
Defined.

End Flag.

(** ** The claims about the listener *)

Section Listener.
Import Dom Header.

(** C2, as the claim has it, fails on a page that has just been loaded:
    the listener that mounting registers is not passive. *)
Lemma mount_listener_not_passive :
  ¬ Forall (λ l, l_passive l = true)
      (listeners (mount (setup (fresh_page 0)).1 (setup (fresh_page 0)).2)).
Proof.
  rewrite mount_setup by apply wf_fresh_page.
  intros Hall. apply Forall_app in Hall as [_ Hall].
  rewrite Forall_singleton in Hall. discriminate Hall.
Qed.

(** C2, amended. On mount the Header calls [addEventListener] for the
    scroll event of [window] with no options argument: the listener is
    registered with capture and once false and with the default passive
    value of the scroll event, which is false. *)
Theorem mount_registers_default_listener (w : world) :
  wf w →
  let i := (setup w).1 in
  let l := flatten "scroll" (ScrollHandler (fresh (dom (refs w)))) None in
  listeners (mount i (setup w).2) = (listeners w ++ [l])%list
  ∧ l_type l = "scroll"
  ∧ l_passive l = default_passive "scroll"
  ∧ l_passive l = false ∧ l_capture l = false ∧ l_once l = false.
Proof.
  intros Hwf i l. subst i l.
  by rewrite mount_setup.
Qed.

Lemma mount_registers_default_listener_witness :
  wf (fresh_page (5 # 2))
  ∧ listeners (mount (setup (fresh_page (5 # 2))).1
                 (setup (fresh_page (5 # 2))).2)
    = [Listener "scroll" (ScrollHandler 0) false false false].
Proof.
  split; [constructor|].
  apply (mount_registers_default_listener (fresh_page (5 # 2))).
  constructor.
Defined.

(** C3, as the claim has it, fails on a page that has just been loaded:
    after the Header has been mounted and unmounted, [window] has a scroll
    listener that it did not have before. *)
Lemma unmount_leaves_listener :
  ¬ (∀ l, l ∈ listeners
                (unmount (setup (fresh_page 0)).1
                   (mount (setup (fresh_page 0)).1 (setup (fresh_page 0)).2))
          ↔ l ∈ listeners (fresh_page 0)).
Proof.
  intros Hsame.
  assert (Hin : scroll_listener (fresh (dom (refs (fresh_page 0))))
                  ∈ listeners (fresh_page 0)).
  { apply Hsame. rewrite unmount_setup.
    apply mounted_listening, wf_fresh_page. }
  inversion Hin.
Qed.

(** C3, amended. The flag is created at setup and its scroll listener on
    mount; the component registers no unmounted hook and never removes the
    listener: unmounting leaves the page as it is, and after a mount and
    unmount the listeners of [window] are those from before the mount
    followed by the listener of the Header. *)
Theorem unmount_keeps_listener (w : world) :
  wf w →
  let i := (setup w).1 in
  let w' := mount i (setup w).2 in
  um i = []
  ∧ unmount i w' = w'
  ∧ listeners (unmount i w')
    = (listeners w ++ [scroll_listener (fresh (dom (refs w)))])%list.
Proof.
  intros Hwf i w'. subst i w'.
  rewrite unmount_setup.
  by rewrite mount_setup.
Qed.

Lemma unmount_keeps_listener_witness :
  wf (fresh_page 0)
  ∧ listeners (unmount (setup (fresh_page 0)).1
                 (mount (setup (fresh_page 0)).1 (setup (fresh_page 0)).2))
    = [Listener "scroll" (ScrollHandler 0) false false false].
Proof.
  split; [constructor|].
  apply (unmount_keeps_listener (fresh_page 0)). constructor.
Defined.

(** C6. Mounting the Header has no error condition and no effect other
    than the registration of a listener: it adds exactly one listener, for
    the scroll event of [window], and changes nothing else; setup before
    it only creates the ref. Setup, mount, unmount and the handler are
    total functions of the page: none of them has a failing case. *)
Theorem mount_registers_one_listener (w : world) :
  wf w →
  let i := (setup w).1 in
  let w1 := (setup w).2 in
  let r := fresh (dom (refs w)) in
  mount i w1 = set_listeners (listeners w1 ++ [scroll_listener r]) w1
  ∧ length (listeners (mount i w1)) = S (length (listeners w1))
  ∧ l_type (scroll_listener r) = "scroll"
  ∧ scrollY (mount i w1) = scrollY w1
  ∧ refs (mount i w1) = refs w1
  ∧ w1 = set_refs (<[r := false]> (refs w)) w
  ∧ refs w !! r = None.
Proof.
  intros Hwf i w1 r. subst i w1 r.
  rewrite mount_setup by done.
  repeat split.
  - simpl. rewrite length_app. simpl. lia.
  - apply not_elem_of_dom, is_fresh.
Qed.

Lemma mount_registers_one_listener_witness :
  wf (fresh_page (1 # 3))
  ∧ mount (setup (fresh_page (1 # 3))).1 (setup (fresh_page (1 # 3))).2
    = World (1 # 3)
        [Listener "scroll" (ScrollHandler 0) false false false]
        {[0%nat := false]}.
Proof.
  split; [constructor|].
  apply (mount_registers_one_listener (fresh_page (1 # 3))). constructor.
Defined.

End Listener.

(** ** Rendering *)

Section Rendering.
Import Template.

(** Induction on templates, with the hypothesis for every child. *)
Lemma node_children_ind (P : node → Prop) :
  (∀ tag attrs children,
      Forall P children → P (Element tag attrs children)) →
  (∀ s, P (Text s)) →
  (∀ e, P (Interpolation e)) →
  (∀ s, P (Comment s)) →
  ∀ t, P t.
Proof.
  intros HE HT HI HC. fix IH 1. intros [tag attrs children|s|e|s].
  - apply HE. induction children as [|c cs IHcs]; constructor.
    + apply IH.
    + apply IHcs.
  - apply HT.
  - apply HI.
  - apply HC.
Qed.

Lemma eval_ext (ρ1 ρ2 : env) (e : expr) :
  (∀ x, x ∈ expr_vars e → ρ1 x = ρ2 x) → eval ρ1 e = eval ρ2 e.
Proof.
  induction e as [x|s|c IHc a IHa b IHb]; simpl; intros Hagree.
  - apply Hagree. by apply list_elem_of_singleton.
  - done.
  - rewrite IHc, IHa, IHb; [done|..];
      intros x Hx; apply Hagree; rewrite !elem_of_app; auto.
Qed.

Lemma render_attr_ext (ρ1 ρ2 : env) (a : attr) :
  (∀ x, x ∈ attr_vars a → ρ1 x = ρ2 x) →
  render_attr ρ1 a = render_attr ρ2 a.
Proof.
  destruct a as [name v|name e]; simpl; intros Hagree; [done|].
  by rewrite (eval_ext ρ1 ρ2 e).
Qed.

(** Two environments that agree on the bindings a template reads render
    it to the same tree. *)
Lemma render_ext (ρ1 ρ2 : env) (t : node) :
  (∀ x, x ∈ vars t → ρ1 x = ρ2 x) → render ρ1 t = render ρ2 t.
Proof.
  induction t as [tag attrs children IH|s|e|s] using node_children_ind;
    simpl; intros Hagree; [|done| |done].
  - f_equal.
    + clear IH. induction attrs as [|a attrs IHattrs]; [done|].
      assert (render_attr ρ1 a = render_attr ρ2 a) as Ha.
      { apply render_attr_ext. intros x Hx. apply Hagree.
        simpl. rewrite !elem_of_app. auto. }
      assert (omap (render_attr ρ1) attrs = omap (render_attr ρ2) attrs)
        as Hrest.
      { apply IHattrs. intros x Hx. apply Hagree.
        simpl in *. rewrite !elem_of_app in *. tauto. }
      simpl. rewrite Ha.
      destruct (render_attr ρ2 a); [f_equal|]; exact Hrest.
    + induction IH as [|c cs Hc _ IHcs]; [done|].
      simpl. f_equal.
      * apply Hc. intros x Hx. apply Hagree.
        simpl. rewrite !elem_of_app. auto.
      * apply IHcs. intros x Hx. apply Hagree.
        simpl in *. rewrite !elem_of_app in *. tauto.
  - by rewrite (eval_ext ρ1 ρ2 e).
Qed.

(** A template that reads no binding renders the same in every
    environment. *)
Lemma render_closed (ρ1 ρ2 : env) (t : node) :
  vars t = [] → render ρ1 t = render ρ2 t.
Proof.
  intros Hclosed. apply render_ext. rewrite Hclosed.
  intros x Hx. by apply elem_of_nil in Hx.
Qed.

Lemma template_closed : vars HeaderView.template = [].
Proof. reflexivity. Qed.

Lemma view_constant i1 w1 i2 w2 : HeaderView.view i1 w1 = HeaderView.view i2 w2.
Proof. apply render_closed, template_closed. Qed.

(** The rendering does read the flag where a template asks for it: a
    header whose class is bound to [scrolled] changes with it. *)
Example bound_class_reads_flag :
  let t := Element "header"
             [Bound "class"
                (ECond (EVar "scrolled") (EStr "header scrolled")
                   (EStr "header"))] [] in
  render (λ _, VBool true) t ≠ render (λ _, VBool false) t.
Proof. discriminate. Qed.

End Rendering.

(** ** The claims about the rendered header *)

Section View.
Import Dom Header Template HeaderView.

(** C4. The markup of the Header does not consume [scrolled]: the template
    reads no binding, so for any two states of the page, and so for the
    flag true and the flag false, the rendered tree is the same and the
    same rules of the style sheet apply to each of its elements. *)
Theorem view_ignores_flag (i : instance) (w1 w2 : world) :
  vars template = []
  ∧ view i w1 = view i w2
  ∧ ∀ width, applied_styles width (view i w1)
             = applied_styles width (view i w2).
Proof.
  split; [apply template_closed|].
  assert (view i w1 = view i w2) as Hview by apply view_constant.
  split; [done|]. intros width. by rewrite Hview.
Qed.

(** C5. The Header renders a [header] element that contains a logo block
    with the name and the tagline, a call-to-action button, and one
    navigation list whose links are the five anchors #home, #about,
    #projects, #skills, #contact in this order; there is no other link. *)
Theorem header_structure (i : instance) (w : world) :
  let v := view i w in
  tag_of v = Some "header"
  ∧ by_class "logo" v
    = [VElement "div" [("class", "logo")]
         [VElement "h1" [("class", "name")] [VText "Developer Portfolio"];
          VElement "p" [("class", "tagline")]
            [VText "Full Stack Developer | Problem Solver"]]]
  ∧ map (λ e, (tag_of e, textContent e)) (by_class "cta-button" v)
    = [(Some "button", "Get in Touch")]
  ∧ map (λ e, (map classes (by_tag "ul" e), hrefs e)) (by_tag "nav" v)
    = [([["nav-links"]],
        ["#home"; "#about"; "#projects"; "#skills"; "#contact"])]
  ∧ hrefs v = ["#home"; "#about"; "#projects"; "#skills"; "#contact"].
Proof.
  intros v. subst v.
  rewrite (view_constant i w createInstance (fresh_page 0)).
  vm_compute. done.
Qed.

(** C7. The scroll handler changes the one ref it has captured and nothing
    else: the scroll offset, the listeners of [window] and every other ref
    are as before, and so is the rendered tree of every instance. *)
Theorem handler_changes_only_flag (r : nat) (w : world) :
  let w' := call (ScrollHandler r) w in
  scrollY w' = scrollY w
  ∧ listeners w' = listeners w
  ∧ delete r (refs w') = delete r (refs w)
  ∧ refs w' !! r = Some (gt_zero (scrollY w))
  ∧ ∀ i, view i w' = view i w.
Proof.
  simpl. split; [done|]. split; [done|].
  split; [apply delete_insert_eq|].
  split; [apply lookup_insert_eq|].
  intros i. apply view_constant.
Qed.

End View.

(** ** The claim about the configuration *)

Section Config.
Import NuxtConfig.

(** C10. The configuration is one object with these settings: the port of
    the development server is 4200, the devtools are enabled, '@nuxt/ui' is
    the only module, and the head has exactly one script, which loads
    Tailwind from https://cdn.tailwindcss.com with defer set. *)
Theorem config_settings :
  get_path ["devServer"; "port"] config = Some (JNum 4200)
  ∧ get_path ["devtools"; "enabled"] config = Some (JBool true)
  ∧ get "modules" config = Some (JArr [JStr "@nuxt/ui"])
  ∧ (∃ script,
        get_path ["app"; "head"; "script"] config = Some (JArr [script])
        ∧ get "src" script = Some (JStr "https://cdn.tailwindcss.com")
        ∧ get "defer" script = Some (JBool true)
        ∧ keys script = ["src"; "defer"])
  ∧ keys config
    = ["compatibilityDate"; "devtools"; "modules"; "app"; "devServer"].
Proof.
  repeat split.
  eexists. repeat split.
Qed.

End Config.

(** ** Pages that hold nothing but Headers *)

Section PageInvariant.
Import Dom Header Page.

Lemma world_eq (w1 w2 : world) :
  scrollY w1 = scrollY w2 → listeners w1 = listeners w2 →
  refs w1 = refs w2 → w1 = w2.
Proof. destruct w1, w2; simpl; by intros -> -> ->. Qed.

Lemma scroll_listener_inj r1 r2 :
  scroll_listener r1 = scroll_listener r2 → r1 = r2.
Proof. by intros [= ->]. Qed.

Lemma headers_only_fresh_page y : headers_only (fresh_page y).
Proof.
  split; [constructor|]. split; [constructor|].
  intros r. simpl. rewrite lookup_empty, elem_of_nil.
  split; [by intros [? ?]|done].
Qed.

Lemma headers_only_wf w : headers_only w → wf w.
Proof.
  intros (_ & Hshape & Hrefs). unfold wf.
  rewrite Forall_forall in *. intros l Hin.
  apply Hrefs. by rewrite <- (Hshape l Hin).
Qed.

Lemma headers_only_no_once w :
  headers_only w → Forall (λ l, l_once l = false) (listeners w).
Proof.
  intros (_ & Hshape & _). eapply Forall_impl; [exact Hshape|].
  by intros l ->.
Qed.

(** Where no listener is a once listener a dispatch leaves the list as it
    is. *)
Lemma foldl_invoke_listeners type ls w :
  Forall (λ l, l_once l = false) ls →
  listeners (foldl (invoke type) w ls) = listeners w.
Proof.
  intros Hls. revert w.
  induction Hls as [|l ls Hl _ IH]; intros w; [done|].
  simpl. rewrite IH. unfold invoke. case_decide; [|done].
  by rewrite call_listeners, Hl.
Qed.

Lemma scroll_listeners y w :
  Forall (λ l, l_once l = false) (listeners w) →
  listeners (scroll y w) = listeners w.
Proof. intros Hls. unfold scroll, dispatch. by rewrite foldl_invoke_listeners. Qed.

(** On such a page a listener handles the ref [r] exactly when [r] is a
    flag of the page. *)
Lemma headers_only_handles w r :
  headers_only w →
  existsb (handles "scroll" r) (listeners w)
  = bool_decide (is_Some (refs w !! r)).
Proof.
  intros (_ & Hshape & Hrefs). rewrite Forall_forall in Hshape.
  apply eq_true_iff_eq. rewrite existsb_exists, bool_decide_eq_true, Hrefs.
  split.
  - intros (l & Hin%list_elem_of_In & Hh).
    apply bool_decide_eq_true_1 in Hh as [_ Hcb].
    rewrite (Hshape l Hin) in Hin. unfold captured in Hin.
    by rewrite Hcb in Hin.
  - intros Hin. exists (scroll_listener r).
    split; [by apply list_elem_of_In|]. by apply bool_decide_eq_true_2.
Qed.

(** A scroll event on such a page, in closed form. *)
Lemma scroll_headers_only y w :
  headers_only w →
  scroll y w = World y (listeners w) ((λ _, gt_zero y) <$> refs w).
Proof.
  intros Hw. apply world_eq; simpl.
  - apply scroll_scrollY.
  - by apply scroll_listeners, headers_only_no_once.
  - apply map_eq. intros r. rewrite lookup_fmap.
    unfold scroll, dispatch. rewrite foldl_invoke_refs. simpl.
    rewrite (headers_only_handles w r Hw).
    by destruct (refs w !! r) as [b|].
Qed.

Lemma mount_headers_only w :
  headers_only w → headers_only (mount (setup w).1 (setup w).2).
Proof.
  intros Hw. pose proof Hw as (Hnodup & Hshape & Hrefs).
  rewrite mount_setup by by apply headers_only_wf.
  set (r := fresh (dom (refs w))).
  assert (refs w !! r = None) as Hr by apply not_elem_of_dom, is_fresh.
  split; [|split]; simpl.
  - apply NoDup_app. split; [done|]. split; [|apply NoDup_singleton].
    intros l Hin ->%list_elem_of_singleton.
    apply Hrefs in Hin. rewrite Hr in Hin. by destruct Hin.
  - apply Forall_app. split; [done|]. by apply Forall_singleton.
  - intros r'. rewrite elem_of_app, list_elem_of_singleton, <- Hrefs.
    destruct (decide (r = r')) as [<-|Hne].
    + rewrite lookup_insert_eq. split; [by right | by eexists].
    + rewrite lookup_insert_ne by done.
      split; [by left|]. intros [?|Heq]; [done|].
      by apply scroll_listener_inj in Heq.
Qed.

Lemma scroll_keeps_headers_only y w :
  headers_only w → headers_only (scroll y w).
Proof.
  intros Hw. rewrite scroll_headers_only by done.
  destruct Hw as (Hnodup & Hshape & Hrefs).
  split; [done|]. split; [done|]. simpl.
  intros r. rewrite lookup_fmap, <- Hrefs.
  by rewrite fmap_is_Some.
Qed.

Lemma step_headers_only w a : headers_only w → headers_only (step w a).
Proof.
  intros Hw. destruct a as [| |y].
  - by apply mount_headers_only.
  - change (headers_only (unmount (setup w).1 (mount (setup w).1 (setup w).2))).
    rewrite unmount_setup. by apply mount_headers_only.
  - by apply scroll_keeps_headers_only.
Qed.

(** Every history of a page that holds only Headers ends on such a page. *)
Lemma run_headers_only acts w : headers_only w → headers_only (run acts w).
Proof.
  intros Hw. unfold run.
  induction acts as [|a acts IH] using rev_ind; [done|].
  rewrite foldl_snoc. by apply step_headers_only.
Qed.

End PageInvariant.

(** ** Histories of a freshly loaded page *)

Section Histories.
Import Dom Header Page.

Lemma run_fresh_headers_only y0 acts :
  headers_only (run acts (fresh_page y0)).
Proof. apply run_headers_only, headers_only_fresh_page. Qed.

Lemma run_snoc acts a w : run (acts ++ [a]) w = step (run acts w) a.
Proof. unfold run. by rewrite foldl_snoc. Qed.

Lemma run_cons a acts w : run (a :: acts) w = run acts (step w a).
Proof. reflexivity. Qed.

Lemma step_mount w : step w MountHeader = mount (setup w).1 (setup w).2.
Proof. reflexivity. Qed.

(** Unmounting undoes nothing of the mount. *)
Lemma step_mount_unmount w :
  step w MountUnmountHeader = mount (setup w).1 (setup w).2.
Proof. reflexivity. Qed.

Lemma mounts_snoc acts a :
  mounts (acts ++ [a]) = (mounts acts + (if is_mount a then 1 else 0))%nat.
Proof.
  unfold mounts. rewrite List.filter_app, length_app. simpl.
  by destruct (is_mount a).
Qed.

(** A step adds a listener and a ref when it mounts a Header, and none
    otherwise. *)
Lemma step_counts w a :
  headers_only w →
  length (listeners (step w a))
  = (length (listeners w) + (if is_mount a then 1 else 0))%nat
  ∧ size (refs (step w a))
    = (size (refs w) + (if is_mount a then 1 else 0))%nat.
Proof.
  intros Hw.
  assert (refs w !! fresh (dom (refs w)) = None) as Hr
    by apply not_elem_of_dom, is_fresh.
  destruct a as [| |y]; cbn [is_mount].
  - rewrite step_mount.
    rewrite mount_setup by by apply headers_only_wf. simpl.
    rewrite length_app, map_size_insert_None by done. simpl. lia.
  - rewrite step_mount_unmount.
    rewrite mount_setup by by apply headers_only_wf. simpl.
    rewrite length_app, map_size_insert_None by done. simpl. lia.
  - cbn [step]. rewrite scroll_headers_only by done. simpl.
    rewrite map_size_fmap. lia.
Qed.

(** No step takes a ref away. *)
Lemma step_keeps_ref w a r :
  headers_only w → is_Some (refs w !! r) → is_Some (refs (step w a) !! r).
Proof.
  intros Hw Hr.
  assert (is_Some (refs (mount (setup w).1 (setup w).2) !! r)) as Hm.
  { rewrite mount_setup by by apply headers_only_wf. simpl.
    destruct (decide (fresh (dom (refs w)) = r)) as [->|Hne].
    - rewrite lookup_insert_eq. by eexists.
    - by rewrite lookup_insert_ne. }
  destruct a as [| |y]; [done|done|].
  cbn [step]. rewrite scroll_headers_only by done. simpl.
  by rewrite lookup_fmap, fmap_is_Some.
Qed.

Lemma run_keeps_ref acts w r :
  headers_only w → is_Some (refs w !! r) → is_Some (refs (run acts w) !! r).
Proof.
  intros Hw Hr. induction acts as [|a acts IH] using rev_ind; [done|].
  rewrite run_snoc. apply step_keeps_ref; [|done].
  by apply run_headers_only.
Qed.

Lemma foldl_invoke_other_type type ls w :
  Forall (λ l, l_type l ≠ type) ls → foldl (invoke type) w ls = w.
Proof.
  intros Hls. revert w.
  induction Hls as [|l ls Hl _ IH]; intros w; [done|].
  simpl. rewrite IH. unfold invoke. by case_decide.
Qed.

(** The flag and the offset after a Header has been set up and mounted,
    on any page. *)
Lemma mount_flag w :
  binding (setup w).1 "scrolled" (mount (setup w).1 (setup w).2) = Some false.
Proof.
  rewrite binding_scrolled, setup_instance, setup_world.
  unfold mount, run_hook, addEventListener. simpl.
  destruct (existsb _ _); simpl; by rewrite lookup_insert_eq.
Qed.

Lemma mount_scrollY w :
  scrollY (mount (setup w).1 (setup w).2) = scrollY w.
Proof.
  rewrite setup_instance, setup_world.
  unfold mount, run_hook, addEventListener. simpl.
  by destruct (existsb _ _).
Qed.

(** X1. On a page that has held nothing but Headers, a scroll event to the
    offset [y] sets the offset, keeps the listeners, and leaves [y > 0] in
    every flag of the page, those of unmounted Headers included. *)
Theorem scroll_sets_every_flag (y0 : Q) (acts : list action) (y : Q) :
  let w := run acts (fresh_page y0) in
  scroll y w = World y (listeners w) ((λ _, gt_zero y) <$> refs w).
Proof. apply scroll_headers_only, run_fresh_headers_only. Qed.

(** X2. A scroll event overrides the one before it: the page after two
    scroll events in a row is the page after the second alone. *)
Theorem later_scroll_overrides (y0 : Q) (acts : list action) (y1 y2 : Q) :
  let w := run acts (fresh_page y0) in
  scroll y2 (scroll y1 w) = scroll y2 w.
Proof.
  intros w. pose proof (run_fresh_headers_only y0 acts) as Hw. fold w in Hw.
  rewrite (scroll_headers_only y2 (scroll y1 w))
    by by apply scroll_keeps_headers_only.
  rewrite !scroll_headers_only by done. simpl.
  f_equal. rewrite <- map_fmap_compose. done.
Qed.

(** X3. Listeners pile up: after any history of a freshly loaded page,
    [window] has one scroll listener for every Header that was ever mounted,
    whether it was unmounted again or not, and the page one flag for each;
    the listeners are distinct and none is capturing, passive or once. *)
Theorem one_listener_per_mount (y0 : Q) (acts : list action) :
  let w := run acts (fresh_page y0) in
  length (listeners w) = mounts acts
  ∧ size (refs w) = mounts acts
  ∧ NoDup (listeners w)
  ∧ Forall (λ l, l_type l = "scroll" ∧ l_capture l = false
                 ∧ l_passive l = false ∧ l_once l = false) (listeners w).
Proof.
  intros w. subst w.
  assert (length (listeners (run acts (fresh_page y0))) = mounts acts
          ∧ size (refs (run acts (fresh_page y0))) = mounts acts) as Hcount.
  { induction acts as [|a acts [IHl IHr]] using rev_ind; [done|].
    rewrite run_snoc, mounts_snoc.
    destruct (step_counts (run acts (fresh_page y0)) a) as [-> ->];
      [apply run_fresh_headers_only|].
    by rewrite IHl, IHr. }
  destruct Hcount as [Hl Hr].
  destruct (run_fresh_headers_only y0 acts) as (Hnodup & Hshape & _).
  repeat split; try done.
  eapply Forall_impl; [exact Hshape|]. by intros l ->.
Qed.

(** X4. The Header listens for nothing but scroll: an event of any other
    type dispatched at [window] leaves the page as it is. *)
Theorem other_events_change_nothing (y0 : Q) (acts : list action)
    (type : string) :
  type ≠ "scroll" →
  let w := run acts (fresh_page y0) in
  dispatch type w = w.
Proof.
  intros Htype w. unfold dispatch. apply foldl_invoke_other_type.
  destruct (run_fresh_headers_only y0 acts) as (_ & Hshape & _).
  eapply Forall_impl; [exact Hshape|].
  intros l ->. simpl. congruence.
Qed.

Lemma other_events_change_nothing_witness :
  dispatch "resize"
    (run [MountHeader; ScrollTo (4 # 1); MountUnmountHeader] (fresh_page 0))
  = run [MountHeader; ScrollTo (4 # 1); MountUnmountHeader] (fresh_page 0).
Proof.
  apply (other_events_change_nothing 0
           [MountHeader; ScrollTo (4 # 1); MountUnmountHeader] "resize").
  discriminate.
Defined.

(** X5. An unmounted Header keeps tracking the scroll position: whatever
    happened before it was mounted and whatever happens after it was
    unmounted, a later scroll event to [y] leaves [y > 0] in its flag. *)
Theorem unmounted_header_tracks_scroll (y0 : Q) (before after : list action)
    (y : Q) :
  let w := run before (fresh_page y0) in
  let i := (setup w).1 in
  binding i "scrolled"
    (run (MountUnmountHeader :: after ++ [ScrollTo y]) w)
  = Some (gt_zero y).
Proof.
  intros w i. subst i.
  pose proof (run_fresh_headers_only y0 before) as Hw. fold w in Hw.
  rewrite binding_scrolled, run_cons, run_snoc.
  set (w1 := step w MountUnmountHeader).
  assert (headers_only w1) as Hw1 by by apply step_headers_only.
  assert (is_Some (refs w1 !! fresh (dom (refs w)))) as Hr.
  { subst w1. rewrite step_mount_unmount.
    rewrite mount_setup by by apply headers_only_wf.
    simpl. rewrite lookup_insert_eq. by eexists. }
  apply (run_keeps_ref after) in Hr as [b Hb]; [|done].
  cbn [step]. rewrite scroll_headers_only by by apply run_headers_only.
  simpl. by rewrite lookup_fmap, Hb.
Qed.

(** X6. Right after mount the flag agrees with the scroll position only on
    a page that is not scrolled down: it reads false whatever the offset is,
    so it equals [scrollY > 0] exactly when the offset is at most zero. *)
Theorem flag_in_sync_at_mount (w : world) :
  let i := (setup w).1 in
  let w' := mount i (setup w).2 in
  binding i "scrolled" w' = Some (gt_zero (scrollY w'))
  ↔ (scrollY w <= 0)%Q.
Proof.
  intros i w'. subst i w'. rewrite mount_flag, mount_scrollY.
  split.
  - intros [= Hgt]. apply Qnot_lt_le. intros Hpos%gt_zero_spec. congruence.
  - intros Hle. f_equal. symmetry. apply not_true_is_false.
    intros Hgt%gt_zero_spec. by apply Qle_not_lt in Hle.
Qed.

Lemma last_scroll_snoc acts a :
  last_scroll (acts ++ [a])
  = from_option Some (last_scroll acts) (scroll_offset a).
Proof.
  unfold last_scroll. rewrite omap_app. simpl.
  destruct (scroll_offset a) as [y|]; simpl.
  - apply last_snoc.
  - by rewrite app_nil_r.
Qed.

(** A step that is not a scroll event leaves the flags that exist as they
    are. *)
Lemma step_mount_keeps_flag w a r :
  headers_only w → is_mount a = true → is_Some (refs w !! r) →
  refs (step w a) !! r = refs w !! r.
Proof.
  intros Hw Ha Hr. destruct a as [| |y]; [| |done].
  - rewrite step_mount, mount_setup by by apply headers_only_wf. simpl.
    apply lookup_insert_ne. intros <-.
    apply (is_fresh (dom (refs w))). by apply elem_of_dom.
  - rewrite step_mount_unmount, mount_setup by by apply headers_only_wf.
    simpl. apply lookup_insert_ne. intros <-.
    apply (is_fresh (dom (refs w))). by apply elem_of_dom.
Qed.

(** X10. The flag of a Header as a function of the history of the page: it
    holds [y > 0] for the offset [y] of the last scroll event since the
    Header was mounted, and false if there was none; Headers that are
    mounted or unmounted in between make no difference. *)
Theorem flag_follows_last_scroll (y0 : Q) (before after : list action) :
  let w := run before (fresh_page y0) in
  let i := (setup w).1 in
  binding i "scrolled" (run (MountHeader :: after) w)
  = Some (from_option gt_zero false (last_scroll after)).
Proof.
  intros w i. subst i.
  pose proof (run_fresh_headers_only y0 before) as Hw. fold w in Hw.
  rewrite binding_scrolled, run_cons.
  set (w1 := step w MountHeader). set (r := fresh (dom (refs w))).
  assert (headers_only w1) as Hw1 by by apply step_headers_only.
  assert (refs w1 !! r = Some false) as Hr.
  { subst w1. rewrite step_mount, mount_setup by by apply headers_only_wf.
    simpl. apply lookup_insert_eq. }
  induction after as [|a after IH] using rev_ind; [done|].
  rewrite run_snoc, last_scroll_snoc.
  assert (headers_only (run after w1)) as Hrun by by apply run_headers_only.
  destruct a as [| |y]; simpl scroll_offset; cbn [from_option].
  - rewrite step_mount_keeps_flag; [done..|]. rewrite IH. by eexists.
  - rewrite step_mount_keeps_flag; [done..|]. rewrite IH. by eexists.
  - cbn [step]. rewrite scroll_headers_only by done. simpl.
    by rewrite lookup_fmap, IH.
Qed.

End Histories.

(** ** The style sheet *)

Section Styles.
Import Template HeaderView.

(** Every media query of the style sheet is [max-width: 768px]. *)
Lemma stylesheet_breakpoints :
  Forall (λ r, r_max_width r = None ∨ r_max_width r = Some 768%Z) stylesheet.
Proof. repeat (constructor; [auto|]). constructor. Qed.

Lemma selects_breakpoint (width : Z) (e : vnode) (r : rule) :
  r ∈ stylesheet →
  selects width e r
  = selects (if bool_decide (width ≤ 768)%Z then 768 else 769)%Z e r.
Proof.
  intros Hin. pose proof stylesheet_breakpoints as Hall.
  rewrite Forall_forall in Hall. unfold selects.
  destruct (Hall r Hin) as [-> | ->]; simpl; [done|].
  f_equal. case_bool_decide; symmetry;
    [apply bool_decide_eq_true_2 | apply bool_decide_eq_false_2]; lia.
Qed.

Lemma applied_styles_breakpoint (width : Z) (v : vnode) :
  applied_styles width v
  = applied_styles (if bool_decide (width ≤ 768)%Z then 768 else 769)%Z v.
Proof.
  unfold applied_styles. apply map_ext. intros e.
  apply filter_ext_in. intros r Hin%list_elem_of_In.
  by apply selects_breakpoint.
Qed.

(** X7. The layout has one breakpoint, at 768px: two viewports on the same
    side of it get the same rules on every element of the header; a wide
    viewport gets the rules of a narrow one without those inside the media
    query, and these are not the same. *)
Theorem one_breakpoint (i : Header.instance) (w : Dom.world) (width : Z) :
  let v := view i w in
  applied_styles width v
  = applied_styles (if bool_decide (width ≤ 768)%Z then 768 else 769)%Z v
  ∧ applied_styles 769 v
    = map (List.filter (λ r, bool_decide (r_max_width r = None)))
        (applied_styles 768 v)
  ∧ applied_styles 769 v ≠ applied_styles 768 v.
Proof.
  intros v. split; [apply applied_styles_breakpoint|].
  subst v.
  rewrite (view_constant i w Header.createInstance (Dom.fresh_page 0)).
  split; [by vm_compute|]. vm_compute. discriminate.
Qed.

(** X8. The header is sticky at every viewport width: the [header] element
    is selected by the [.header] rule alone, which pins it to the top with
    [position: sticky], [top: 0] and [z-index: 100]; no rule of a media query
    touches it. *)
Theorem header_sticky (i : Header.instance) (w : Dom.world) (width : Z) :
  ∃ declarations,
    head (applied_styles width (view i w))
    = Some [Rule None (Selector "header" false false) declarations]
    ∧ ("position", "sticky") ∈ declarations
    ∧ ("top", "0") ∈ declarations
    ∧ ("z-index", "100") ∈ declarations.
Proof.
  rewrite applied_styles_breakpoint.
  rewrite (view_constant i w Header.createInstance (Dom.fresh_page 0)).
  eexists. split.
  - case_bool_decide; vm_compute; reflexivity.
  - rewrite !list_elem_of_In. simpl. tauto.
Qed.

(** X9. Template and style sheet fit: every element of the header that has
    a class is selected by a rule outside the media query, and every rule of
    the style sheet selects some element of the header. *)
Theorem styles_cover_template (i : Header.instance) (w : Dom.world) :
  let v := view i w in
  Forall (λ e, classes e = []
               ∨ Exists (λ r, r_max_width r = None
                              ∧ s_class (r_selector r) ∈ classes e)
                   stylesheet) (elements v)
  ∧ Forall (λ r, Exists (λ e, s_class (r_selector r) ∈ classes e)
                   (elements v)) stylesheet.
Proof.
  intros v. subst v.
  rewrite (view_constant i w Header.createInstance (Dom.fresh_page 0)).
  apply (bool_decide_unpack _). by vm_compute.
Qed.

End Styles.
